(** * Blender 3.4 "Armature Animation Rotate"

    A shallow embedding of [src/Blender/3.4/Armature Animation Rotate.py].

    The script is a straight-line sequence of calls into the host (the [bpy]
    scene graph, the constraint stack and the NLA bake operator).  The host is
    modelled as an explicit scene state threaded through an error monad; the
    script itself is transcribed statement by statement, with the source line
    numbers in the margin.

    Idealisations of the host, fixed here once:
    - placement angles and bone matrices are exact reals (the host stores
      32-bit floats);
    - an object's placement is its rotation about the world Z axis, the only
      component the script touches;
    - a bone transform is a 3x4 matrix (three rotation columns and a location
      column) in the space of its armature object; the bone hierarchy is not
      modelled;
    - operators that act on the ambient context ([nla.bake]) take the object
      the script prepared for them as an explicit argument. *)

From Stdlib Require Import ZArith QArith Qminmax Reals Lra String DecimalString DecimalZ List.
From stdpp Require Import gmap strings list fin_maps.

Local Open Scope Z_scope.

(** ** Python builtins used by the script *)

(** [str(n)] on a Python [int]. *)
Definition str (n : Z) : string := NilZero.string_of_int (Z.to_int n).

(** [int(x)] on a Python [float]: truncation toward zero. *)
Definition int (x : Q) : Z := Z.quot (Qnum x) (Z.pos (Qden x)).

(** [math.radians], in exact arithmetic. *)
Definition radians (deg : Z) : R := (IZR deg * PI / 180)%R.

(** ** Bone transforms and rotation about the vertical axis *)

Definition vec3 : Type := R * R * R.

Definition rot_z_vec (a : R) (v : vec3) : vec3 :=
  let '(x, y, z) := v in
  (x * cos a - y * sin a, x * sin a + y * cos a, z)%R.

Record Xform := mkXform {
  axis_x : vec3;
  axis_y : vec3;
  axis_z : vec3;
  location : vec3
}.

Definition identity : Xform :=
  mkXform (1, 0, 0)%R (0, 1, 0)%R (0, 0, 1)%R (0, 0, 0)%R.

(** Left multiplication by the rotation of angle [a] about world Z: this is
    how an object placed at angle [a] maps its bones to world space. *)
Definition rotZ (a : R) (m : Xform) : Xform :=
  mkXform (rot_z_vec a (axis_x m)) (rot_z_vec a (axis_y m))
          (rot_z_vec a (axis_z m)) (rot_z_vec a (location m)).

(** What a full-influence COPY_ROTATION / COPY_LOCATION constraint does to the
    owner's world matrix [own], given the target's world matrix [tgt]. *)
Definition copy_rotation (own tgt : Xform) : Xform :=
  mkXform (axis_x tgt) (axis_y tgt) (axis_z tgt) (location own).

Definition copy_location (own tgt : Xform) : Xform :=
  mkXform (axis_x own) (axis_y own) (axis_z own) (location tgt).

(** ** Host data model *)

Inductive ObjectType := ARMATURE | MESH | CURVE | EMPTY | LIGHT | CAMERA.

Global Instance ObjectType_eq_dec : EqDecision ObjectType.
Proof. solve_decision. Defined.

Inductive ConstraintType := COPY_ROTATION | COPY_LOCATION.

Record Constraint := mkConstraint {
  ctype : ConstraintType;
  target : option nat;
  subtarget : string;
  influence : Q
}.

Record PoseBone := mkPoseBone {
  bone_name : string;
  constraints : list Constraint
}.

Record Armature := mkArmature { bones : list string }.

Record NlaStrip := mkNlaStrip {
  strip_name : string;
  strip_frame_start : Z;
  strip_action : nat
}.

Record NlaTrack := mkNlaTrack {
  track_name : string;
  strips : list NlaStrip
}.

Record AnimData := mkAnimData {
  action : option nat;
  nla_tracks : list NlaTrack
}.

Record Object := mkObject {
  name : string;
  type : ObjectType;
  data : Armature;
  rotation_euler_z : R;
  animation_data : option AnimData;
  pose_bones : list PoseBone;
  select : bool
}.

(** An action: its [frame_range] attribute and, per keyed frame, the pose
    (bone name to transform). *)
Record Action := mkAction {
  action_name : string;
  frame_range : Q * Q;
  keyframes : list (Z * list (string * Xform))
}.

Inductive Mode := OBJECT | POSE.

Record Popup := mkPopup {
  popup_title : string;
  popup_icon : string;
  popup_text : string
}.

(** Objects and actions are host datablocks held by reference: the stores are
    keyed by identity, so that two objects can share one action. *)
Record Scene := mkScene {
  objects : gmap nat Object;
  actions : gmap nat Action;
  collection : list nat;
  active_object : option nat;
  mode : Mode;
  popups : list Popup
}.

(** *** Field updates *)

Definition set_name (v : string) (o : Object) : Object :=
  mkObject v (type o) (data o) (rotation_euler_z o) (animation_data o)
           (pose_bones o) (select o).
Definition set_data (v : Armature) (o : Object) : Object :=
  mkObject (name o) (type o) v (rotation_euler_z o) (animation_data o)
           (pose_bones o) (select o).
Definition set_rotation_euler_z (v : R) (o : Object) : Object :=
  mkObject (name o) (type o) (data o) v (animation_data o)
           (pose_bones o) (select o).
Definition set_animation_data (v : option AnimData) (o : Object) : Object :=
  mkObject (name o) (type o) (data o) (rotation_euler_z o) v
           (pose_bones o) (select o).
Definition set_pose_bones (v : list PoseBone) (o : Object) : Object :=
  mkObject (name o) (type o) (data o) (rotation_euler_z o) (animation_data o)
           v (select o).
Definition set_select (v : bool) (o : Object) : Object :=
  mkObject (name o) (type o) (data o) (rotation_euler_z o) (animation_data o)
           (pose_bones o) v.

Definition set_objects (v : gmap nat Object) (s : Scene) : Scene :=
  mkScene v (actions s) (collection s) (active_object s) (mode s) (popups s).
Definition set_actions (v : gmap nat Action) (s : Scene) : Scene :=
  mkScene (objects s) v (collection s) (active_object s) (mode s) (popups s).
Definition set_collection (v : list nat) (s : Scene) : Scene :=
  mkScene (objects s) (actions s) v (active_object s) (mode s) (popups s).
Definition set_mode (v : Mode) (s : Scene) : Scene :=
  mkScene (objects s) (actions s) (collection s) (active_object s) v (popups s).
Definition set_popups (v : list Popup) (s : Scene) : Scene :=
  mkScene (objects s) (actions s) (collection s) (active_object s) (mode s) v.

(** ** The interpreter monad: scene state plus uncaught Python exceptions *)

Inductive PyError :=
| AttributeError (attr : string)   (* 'NoneType' object has no attribute .. *)
| ReferenceError.                  (* the datablock behind a reference is gone *)

Inductive Result (A : Type) :=
| Ok (a : A) (s : Scene)
| Raise (e : PyError) (s : Scene).
Arguments Ok {A} a s.
Arguments Raise {A} e s.

Definition M (A : Type) : Type := Scene -> Result A.

Definition ret {A} (a : A) : M A := fun s => Ok a s.

Definition bind {A B} (m : M A) (k : A -> M B) : M B :=
  fun s => match m s with
           | Ok a s' => k a s'
           | Raise e s' => Raise e s'
           end.

Definition raise {A} (e : PyError) : M A := fun s => Raise e s.

Declare Scope py_scope.
Delimit Scope py_scope with py.
Notation "x <- m ;; k" := (bind m (fun x => k))
  (at level 100, m at next level, right associativity) : py_scope.
Notation "m ;; k" := (bind m (fun _ => k))
  (at level 100, right associativity) : py_scope.
Local Open Scope py_scope.

(** Attribute access on a value that may be [None]. *)
Definition attr {A} (a : string) (v : option A) : M A :=
  match v with
  | Some x => ret x
  | None => raise (AttributeError a)
  end.

Definition get_object (id : nat) : M Object :=
  fun s => match objects s !! id with
           | Some o => Ok o s
           | None => Raise ReferenceError s
           end.

Definition modify_object (id : nat) (f : Object -> Object) : M unit :=
  fun s => match objects s !! id with
           | Some o => Ok tt (set_objects (<[id := f o]> (objects s)) s)
           | None => Raise ReferenceError s
           end.

Definition get_action (id : nat) : M Action :=
  fun s => match actions s !! id with
           | Some a => Ok a s
           | None => Raise ReferenceError s
           end.

(** ** Host operations *)

(** [bpy.context.active_object] (may be [None]). *)
Definition context_active_object : M (option nat) :=
  fun s => Ok (active_object s) s.

(** [window_manager.popup_menu(draw, title=.., icon=..)], where [draw] puts
    one label with [text] on the layout. *)
Definition popup_menu (text title icon : string) : M unit :=
  fun s => Ok tt (set_popups (popups s ++ [mkPopup title icon text]) s).

(** [Object.copy()]: a new datablock with a fresh identity.  Animation data is
    duplicated with it (the tracks are copied, the action is shared); the copy
    is in no collection and so not selected. *)
Definition object_copy (id : nat) : M nat :=
  o <- get_object id ;;
  fun s => let id' := fresh (dom (objects s)) in
           Ok id' (set_objects (<[id' := set_select false o]> (objects s)) s).

(** [Armature.copy()]. *)
Definition data_copy (d : Armature) : M Armature := ret d.

(** [bpy.context.collection.objects.link(obj)]. *)
Definition collection_objects_link (id : nat) : M unit :=
  fun s => Ok tt (set_collection (collection s ++ [id]) s).

(** [obj.animation_data.nla_tracks.new()]: appends an empty track and returns
    a handle on it (its position). *)
Definition nla_tracks_new (id : nat) : M nat :=
  o <- get_object id ;;
  ad <- attr "nla_tracks" (animation_data o) ;;
  modify_object id
    (set_animation_data
       (Some (mkAnimData (action ad) (nla_tracks ad ++ [mkNlaTrack "NlaTrack" []])))) ;;
  ret (length (nla_tracks ad)).

Definition modify_track (id t : nat) (f : NlaTrack -> NlaTrack) : M unit :=
  o <- get_object id ;;
  ad <- attr "nla_tracks" (animation_data o) ;;
  modify_object id
    (set_animation_data (Some (mkAnimData (action ad) (alter f t (nla_tracks ad))))).

(** [track.name = v]. *)
Definition track_set_name (id t : nat) (v : string) : M unit :=
  modify_track id t (fun tr => mkNlaTrack v (strips tr)).

(** [track.strips.new(name, start, action)]: appends a strip, returns a handle. *)
Definition strips_new (id t : nat) (nm : string) (start : Z) (a : nat) : M nat :=
  o <- get_object id ;;
  ad <- attr "nla_tracks" (animation_data o) ;;
  tr <- attr "strips" (nla_tracks ad !! t) ;;
  modify_track id t (fun tr => mkNlaTrack (track_name tr) (strips tr ++ [mkNlaStrip nm start a])) ;;
  ret (length (strips tr)).

(** [strip.name = v]. *)
Definition strip_set_name (id t st : nat) (v : string) : M unit :=
  modify_track id t
    (fun tr => mkNlaTrack (track_name tr)
                 (alter (fun x => mkNlaStrip v (strip_frame_start x) (strip_action x)) st
                        (strips tr))).

(** [bone.constraints.new(type=ty)]: target unset, full influence. *)
Definition constraints_new (ty : ConstraintType) : Constraint :=
  mkConstraint ty None "" 1.

Definition set_target (v : option nat) (c : Constraint) : Constraint :=
  mkConstraint (ctype c) v (subtarget c) (influence c).
Definition set_subtarget (v : string) (c : Constraint) : Constraint :=
  mkConstraint (ctype c) (target c) v (influence c).
Definition set_influence (v : Q) (c : Constraint) : Constraint :=
  mkConstraint (ctype c) (target c) (subtarget c) v.

(** [obj.animation_data_clear()]. *)
Definition animation_data_clear (id : nat) : M unit :=
  modify_object id (set_animation_data None).

(** [obj.select_set(v)]. *)
Definition select_set (id : nat) (v : bool) : M unit :=
  modify_object id (set_select v).

(** [bpy.ops.object.mode_set(mode=m)]. *)
Definition mode_set (m : Mode) : M unit :=
  fun s => Ok tt (set_mode m s).

(** [bpy.ops.object.select_all(action='DESELECT')]. *)
Definition select_all_DESELECT : M unit :=
  fun s => Ok tt (set_objects (set_select false <$> objects s) s).

Definition is_selected (s : Scene) (id : nat) : bool :=
  match objects s !! id with
  | Some o => select o
  | None => false
  end.

(** [bpy.ops.object.delete()]: every selected object leaves the scene. *)
Definition object_delete : M unit :=
  fun s =>
    Ok tt (set_collection (List.filter (fun id => negb (is_selected s id)) (collection s))
          (set_objects (filter (fun kv => select kv.2 = false) (objects s)) s)).

(** ** Pose evaluation and the bake operator *)

(** What the host's solver does where this model has no closed form: the value
    of an action at a frame or bone without a stored key (F-curve
    interpolation, extrapolation, rest pose), a constraint at partial
    influence, and the [frame_range] the host reports for an action that ends
    up with no keys at all. *)
Class Sampler := {
  fcurve_fill : Action -> Z -> string -> Xform;
  partial_influence : Q -> Xform -> Xform -> Xform;
  empty_frame_range : Q * Q
}.

Fixpoint assoc {K V} `{EqDecision K} (k : K) (l : list (K * V)) : option V :=
  match l with
  | [] => None
  | (k', v) :: l' => if decide (k = k') then Some v else assoc k l'
  end.

Definition lookup_key (a : Action) (f : Z) (b : string) : option Xform :=
  match assoc f (keyframes a) with
  | Some pose => assoc b pose
  | None => None
  end.

Section Bake.
Context {solver : Sampler}.

(** The action [a] evaluated at frame [f] for bone [b]. *)
Definition evaluate (a : Action) (f : Z) (b : string) : Xform :=
  match lookup_key a f b with
  | Some m => m
  | None => fcurve_fill a f b
  end.

Definition active_action (s : Scene) (o : Object) : option Action :=
  match animation_data o with
  | Some ad => match action ad with
               | Some a => actions s !! a
               | None => None
               end
  | None => None
  end.

(** A bone's animated matrix in the space of its object; the rest pose when
    the object plays no action. *)
Definition pose_matrix (s : Scene) (o : Object) (b : string) (f : Z) : Xform :=
  match active_action s o with
  | Some a => evaluate a f b
  | None => identity
  end.

Definition world_matrix (o : Object) (m : Xform) : Xform :=
  rotZ (rotation_euler_z o) m.

Definition has_bone (o : Object) (b : string) : bool :=
  bool_decide (b ∈ bone_name <$> pose_bones o).

(** World matrix of a constraint's target at frame [f]: the sub-target bone
    when the target has one of that name, else the target object itself;
    [None] when the constraint has no (live) target. *)
Definition constraint_target (s : Scene) (c : Constraint) (f : Z) : option Xform :=
  match target c with
  | Some t =>
      match objects s !! t with
      | Some o =>
          Some (world_matrix o (if has_bone o (subtarget c)
                                then pose_matrix s o (subtarget c) f
                                else identity))
      | None => None
      end
  | None => None
  end.

Definition apply_constraint (s : Scene) (f : Z) (own : Xform) (c : Constraint) : Xform :=
  match constraint_target s c f with
  | Some tgt =>
      let full := match ctype c with
                  | COPY_ROTATION => copy_rotation own tgt
                  | COPY_LOCATION => copy_location own tgt
                  end in
      if Qeq_bool (influence c) 1 then full
      else partial_influence (influence c) own full
  | None => own
  end.

(** Visual keying: the bone's final world matrix (constraint stack applied
    in order) brought back into the space of its own object. *)
Definition visual_matrix (s : Scene) (o : Object) (pb : PoseBone) (f : Z) : Xform :=
  rotZ (- rotation_euler_z o)
       (fold_left (apply_constraint s f) (constraints pb)
                  (world_matrix o (pose_matrix s o (bone_name pb) f))).

Definition baked_pose (s : Scene) (o : Object) (f : Z) : list (string * Xform) :=
  map (fun pb => (bone_name pb, visual_matrix s o pb f)) (pose_bones o).

(** [range(frame_start, frame_end + 1)]. *)
Definition bake_frames (frame_start frame_end : Z) : list Z :=
  seqZ frame_start (frame_end - frame_start + 1).

Definition baked_keyframes (s : Scene) (o : Object) (frame_start frame_end : Z)
  : list (Z * list (string * Xform)) :=
  map (fun f => (f, baked_pose s o f)) (bake_frames frame_start frame_end).

(** Keys written into an action that already has some: a baked frame
    replaces the stored pose of that frame. *)
Definition insert_keyframes (new old : list (Z * list (string * Xform)))
  : list (Z * list (string * Xform)) :=
  new ++ List.filter (fun kf => negb (bool_decide (kf.1 ∈ new.*1))) old.

Definition clear_constraints (pb : PoseBone) : PoseBone :=
  mkPoseBone (bone_name pb) [].

(** [bpy.ops.nla.bake(frame_start, frame_end, visual_keying=True,
    clear_constraints=True, use_current_action=True, bake_types={'POSE'})]
    on the armature [id].  With [use_current_action] the keys go into the
    object's current action when it has one; otherwise into a new action,
    which becomes the object's action. *)
Definition nla_bake (id : nat) (frame_start frame_end : Z) : M unit :=
  o <- get_object id ;;
  fun s =>
    let keys := baked_keyframes s o frame_start frame_end in
    let tracks := match animation_data o with
                  | Some ad => nla_tracks ad
                  | None => []
                  end in
    let current := match animation_data o with
                   | Some ad => match action ad with
                                | Some a => match actions s !! a with
                                            | Some act => Some (a, act)
                                            | None => None
                                            end
                                | None => None
                                end
                   | None => None
                   end in
    let '(a, act) :=
      match current with
      | Some (a, act) =>
          (a, mkAction (action_name act)
                       (Qmin (inject_Z frame_start) (fst (frame_range act)),
                        Qmax (inject_Z frame_end) (snd (frame_range act)))
                       (insert_keyframes keys (keyframes act)))
      | None =>
          (fresh (dom (actions s)),
           mkAction "Action"
                    (if decide (frame_start <= frame_end)
                     then (inject_Z frame_start, inject_Z frame_end)
                     else empty_frame_range)
                    keys)
      end in
    let o' := set_pose_bones (clear_constraints <$> pose_bones o)
                (set_animation_data (Some (mkAnimData (Some a) tracks)) o) in
    Ok tt (set_objects (<[id := o']> (objects s)) (set_actions (<[a := act]> (actions s)) s)).

End Bake.

(** ** The script *)

Section Script.
Context {solver : Sampler}.

(** The module constant [ROTATION] (line 24), in degrees. *)
Variable ROTATION : Z.

(* 32-38 *)
Definition show_error_message (message : string) : M unit :=
  popup_menu message "Error" "ERROR".

(* 44-56: the two duplicates, linked into the scene *)
Definition duplicate (parent_armature_obj : nat) : M (nat * nat) :=
  parent <- get_object parent_armature_obj ;;
  let parent_armature_data := data parent in                              (* 42 *)
  bake_armature_obj <- object_copy parent_armature_obj ;;                 (* 45 *)
  d <- data_copy parent_armature_data ;;                                  (* 46 *)
  modify_object bake_armature_obj (set_data d) ;;
  modify_object bake_armature_obj (set_name "Bake") ;;                    (* 47 *)
  updated_armature_obj <- object_copy parent_armature_obj ;;              (* 50 *)
  d <- data_copy parent_armature_data ;;                                  (* 51 *)
  modify_object updated_armature_obj (set_data d) ;;
  modify_object updated_armature_obj (set_name "Updated") ;;              (* 52 *)
  collection_objects_link bake_armature_obj ;;                            (* 55 *)
  collection_objects_link updated_armature_obj ;;                         (* 56 *)
  ret (bake_armature_obj, updated_armature_obj).

(* 58-63: the original action goes onto an NLA track of 'Updated' *)
Definition archive_original (parent_armature_obj updated_armature_obj : nat) : M unit :=
  updated <- get_object updated_armature_obj ;;
  ad <- attr "action" (animation_data updated) ;;                         (* 59 *)
  let original_action := action ad in
  track <- nla_tracks_new updated_armature_obj ;;                         (* 60 *)
  parent <- get_object parent_armature_obj ;;
  track_set_name updated_armature_obj track (name parent ++ "-original") ;; (* 61 *)
  a <- attr "frame_range" original_action ;;                              (* 62 *)
  act <- get_action a ;;
  strip <- strips_new updated_armature_obj track "original"
                      (int (fst (frame_range act))) a ;;
  strip_set_name updated_armature_obj track strip "original".            (* 63 *)

(* 73-87: the body of the loop over the bones of 'Bake' *)
Definition pin_bone (parent_armature_obj : nat) (bone : PoseBone) : PoseBone :=
  let copy_rotation_constraint := constraints_new COPY_ROTATION in       (* 73 *)
  let copy_rotation_constraint :=
    set_target (Some parent_armature_obj) copy_rotation_constraint in    (* 75 *)
  let copy_rotation_constraint :=
    set_subtarget (bone_name bone) copy_rotation_constraint in           (* 76 *)
  let copy_rotation_constraint :=
    set_influence 1 copy_rotation_constraint in                          (* 78 *)
  let copy_location_constraint := constraints_new COPY_LOCATION in       (* 82 *)
  let copy_location_constraint :=
    set_target (Some parent_armature_obj) copy_location_constraint in    (* 84 *)
  let copy_location_constraint :=
    set_subtarget (bone_name bone) copy_location_constraint in           (* 85 *)
  let copy_location_constraint :=
    set_influence 1 copy_location_constraint in                          (* 87 *)
  mkPoseBone (bone_name bone)
             (constraints bone ++ [copy_rotation_constraint; copy_location_constraint]).

(* 66-97: everything between the archival and the bake; returns
   [animation_length] *)
Definition prepare_bake (parent_armature_obj bake_armature_obj : nat) : M Z :=
  parent <- get_object parent_armature_obj ;;
  ad <- attr "action" (animation_data parent) ;;                          (* 67 *)
  a <- attr "frame_range" (action ad) ;;
  act <- get_action a ;;
  let animation_length := int (snd (frame_range act)) in
  modify_object bake_armature_obj                                         (* 70 *)
    (fun o => set_pose_bones (pin_bone parent_armature_obj <$> pose_bones o) o) ;;
  animation_data_clear bake_armature_obj ;;                               (* 90 *)
  modify_object parent_armature_obj                                       (* 93 *)
    (fun o => set_rotation_euler_z (rotation_euler_z o + radians ROTATION)%R o) ;;
  select_set bake_armature_obj true ;;                                    (* 96 *)
  mode_set POSE ;;                                                        (* 97 *)
  ret animation_length.

(* 109-128 *)
Definition archive_rotated_and_cleanup
           (parent_armature_obj bake_armature_obj updated_armature_obj : nat) : M unit :=
  bake <- get_object bake_armature_obj ;;
  ad <- attr "action" (animation_data bake) ;;                            (* 109 *)
  let rotated_action := action ad in
  track <- nla_tracks_new updated_armature_obj ;;                         (* 112 *)
  parent <- get_object parent_armature_obj ;;
  track_set_name updated_armature_obj track
                 (name parent ++ "-" ++ str ROTATION) ;;                  (* 113 *)
  a <- attr "frame_range" rotated_action ;;                               (* 114 *)
  act <- get_action a ;;
  strip <- strips_new updated_armature_obj track (str ROTATION)
                      (int (fst (frame_range act))) a ;;
  strip_set_name updated_armature_obj track strip (str ROTATION) ;;       (* 115 *)
  updated <- get_object updated_armature_obj ;;
  uad <- attr "action" (animation_data updated) ;;                        (* 116 *)
  modify_object updated_armature_obj
    (set_animation_data (Some (mkAnimData None (nla_tracks uad)))) ;;
  mode_set OBJECT ;;                                                      (* 119 *)
  modify_object parent_armature_obj                                       (* 120 *)
    (fun o => set_rotation_euler_z (rotation_euler_z o + radians (- ROTATION))%R o) ;;
  select_all_DESELECT ;;                                                  (* 123 *)
  select_set bake_armature_obj true ;;                                    (* 124 *)
  object_delete ;;                                                        (* 125 *)
  parent <- get_object parent_armature_obj ;;
  modify_object updated_armature_obj (set_name (name parent ++ "-updated")). (* 128 *)

(* 41-97 *)
Definition setup (parent_armature_obj : nat) : M (nat * nat * Z) :=
  copies <- duplicate parent_armature_obj ;;
  let '(bake_armature_obj, updated_armature_obj) := copies in
  archive_original parent_armature_obj updated_armature_obj ;;
  animation_length <- prepare_bake parent_armature_obj bake_armature_obj ;;
  ret (bake_armature_obj, updated_armature_obj, animation_length).

(* 39-128: the [else] branch *)
Definition rotate_armature (parent_armature_obj : nat) : M unit :=
  prepared <- setup parent_armature_obj ;;
  let '(bake_armature_obj, updated_armature_obj, animation_length) := prepared in
  nla_bake bake_armature_obj 1 animation_length ;;                        (* 100-107 *)
  archive_rotated_and_cleanup parent_armature_obj bake_armature_obj updated_armature_obj.

(* 27-128 *)
Definition script : M unit :=
  active <- context_active_object ;;                                      (* 27 *)
  parent_armature_obj <- attr "type" active ;;                            (* 30 *)
  parent <- get_object parent_armature_obj ;;
  if bool_decide (type parent ≠ ARMATURE)
  then show_error_message "The selected object is not an armature."       (* 38 *)
  else rotate_armature parent_armature_obj.

End Script.

(** * Vocabulary for the statements *)

(** ** Identities the host hands out *)

(** The two duplicates of lines 45 and 50, and the action the bake creates. *)
Definition bake_id (s : Scene) : nat := fresh (dom (objects s) : gset nat).
Definition updated_id (s : Scene) : nat :=
  fresh ({[bake_id s]} ∪ dom (objects s) : gset nat).
Definition rotated_id (s : Scene) : nat := fresh (dom (actions s) : gset nat).

(** ** Objects and tracks as the script leaves them *)

Definition copy_of (nm : string) (o : Object) : Object :=
  set_name nm (set_data (data o) (set_select false o)).

Definition archived_track (nm strip_nm : string) (start : Z) (a : nat) : NlaTrack :=
  mkNlaTrack nm [mkNlaStrip strip_nm start a].

Definition with_tracks (a : option nat) (trs : list NlaTrack) (o : Object) : Object :=
  set_animation_data (Some (mkAnimData a trs)) o.

Definition pinned (p : nat) (B : Object) : Object :=
  set_select true (set_animation_data None
    (set_pose_bones (pin_bone p <$> pose_bones B) B)).

Definition turned (deg : Z) (P : Object) : Object :=
  set_rotation_euler_z (rotation_euler_z P + radians deg)%R P.

Definition baked (a : nat) (B : Object) : Object :=
  set_pose_bones (clear_constraints <$> pose_bones B)
    (set_animation_data (Some (mkAnimData (Some a) [])) B).

Definition archived (nm : string) (tr : NlaTrack) (uad : AnimData) (U : Object) : Object :=
  set_name nm
    (set_select false
       (set_animation_data (Some (mkAnimData None (nla_tracks uad ++ [tr]))) U)).

Definition original_track (o : Object) (a : nat) (act : Action) : NlaTrack :=
  archived_track (name o ++ "-original") "original" (int (fst (frame_range act))) a.

Definition rotated_track (ROTATION : Z) (o : Object) (r : nat) (ract : Action) : NlaTrack :=
  archived_track (name o ++ "-" ++ str ROTATION) (str ROTATION)
                 (int (fst (frame_range ract))) r.

(** The actions an object's NLA strips refer to, in track order. *)
Definition archived_actions (s : Scene) (id : nat) : list nat :=
  match objects s !! id with
  | Some o => match animation_data o with
              | Some ad => flat_map (fun tr => map strip_action (strips tr)) (nla_tracks ad)
              | None => []
              end
  | None => []
  end.

(** ** The input the script is written for

    The active object [p] is an armature [o] whose animation data [ad] has the
    active action [a], stored as [act]. *)
Definition ready (s : Scene) (p : nat) (o : Object) (ad : AnimData) (a : nat)
           (act : Action) : Prop :=
  active_object s = Some p ∧ objects s !! p = Some o ∧ type o = ARMATURE ∧
  animation_data o = Some ad ∧ action ad = Some a ∧ actions s !! a = Some act.

(** Line 67. *)
Definition animation_length (act : Action) : Z := int (snd (frame_range act)).

(** The bones of the armature cover the bones keyed in the action. *)
Definition covers (o : Object) (act : Action) : bool :=
  forallb (fun kf => forallb (fun bk => bool_decide (bk.1 ∈ bone_name <$> pose_bones o)) kf.2)
          (keyframes act).

(** ** The scenes along a successful run *)

Section Scenes.
Context {solver : Sampler}.
Variable ROTATION : Z.

Definition baked_range (frame_start frame_end : Z) : Q * Q :=
  if decide (frame_start <= frame_end)
  then (inject_Z frame_start, inject_Z frame_end)
  else empty_frame_range.

(** After line 56. *)
Definition duplicated (s : Scene) (o : Object) : Scene :=
  set_collection (collection s ++ [bake_id s; updated_id s])
    (set_objects (<[updated_id s := copy_of "Updated" o]>
                    (<[bake_id s := copy_of "Bake" o]> (objects s))) s).

Definition updated_original (o : Object) (ad : AnimData) (a : nat) (act : Action)
  : Object :=
  with_tracks (Some a) (nla_tracks ad ++ [original_track o a act]) (copy_of "Updated" o).

(** After line 97: the scene as the bake operator finds it. *)
Definition prepared (s : Scene) (p : nat) (o : Object) (ad : AnimData) (a : nat)
           (act : Action) : Scene :=
  set_mode POSE
    (set_objects
       (<[bake_id s := pinned p (copy_of "Bake" o)]>
          (<[p := turned ROTATION o]>
             (<[updated_id s := updated_original o ad a act]>
                (objects (duplicated s o)))))
       (duplicated s o)).

(** The action the bake creates. *)
Definition rotated_action (s : Scene) (p : nat) (o : Object) (ad : AnimData) (a : nat)
           (act : Action) : Action :=
  mkAction "Action" (baked_range 1 (animation_length act))
           (baked_keyframes (prepared s p o ad a act) (pinned p (copy_of "Bake" o))
                            1 (animation_length act)).

(** After line 128: the scene the script leaves behind when it runs to
    completion. *)
Definition finished (s : Scene) (p : nat) (o : Object) (ad : AnimData) (a : nat)
           (act : Action) : Scene :=
  let s3 := prepared s p o ad a act in
  let r := rotated_id s in
  let ract := rotated_action s p o ad a act in
  set_mode OBJECT
    (set_collection (List.filter (fun id => negb (Nat.eqb id (bake_id s))) (collection s3))
       (set_objects
          (<[updated_id s :=
               archived (name o ++ "-updated") (rotated_track ROTATION o r ract)
                        (mkAnimData (Some a) (nla_tracks ad ++ [original_track o a act]))
                        (updated_original o ad a act)]>
             (delete (bake_id s)
                (set_select false <$>
                   <[p := turned (- ROTATION) (turned ROTATION o)]>
                     (<[bake_id s := baked r (pinned p (copy_of "Bake" o))]>
                        (objects s3)))))
          (set_actions (<[r := ract]> (actions s)) s3))).

(** Where the script stops when the armature has animation data but no
    active action (line 62). *)
Definition stranded (s : Scene) (o : Object) (ad : AnimData) : Scene :=
  set_objects
    (<[updated_id s :=
         with_tracks None (nla_tracks ad ++ [mkNlaTrack (name o ++ "-original") []])
                     (copy_of "Updated" o)]>
       (objects (duplicated s o)))
    (duplicated s o).

End Scenes.

(** ** Running the script a second time

    What the user does between two runs to rebake the rebaked animation:
    [obj.animation_data.action = a]. *)
Definition action_assign (id a : nat) : M unit :=
  o <- get_object id ;;
  ad <- attr "action" (animation_data o) ;;
  modify_object id (with_tracks (Some a) (nla_tracks ad)).

(** ** Sample scenes *)

(** A solver that holds the rest pose where nothing is keyed. *)
Definition rest_sampler : Sampler :=
  {| fcurve_fill := fun _ _ _ => identity;
     partial_influence := fun _ own _ => own;
     empty_frame_range := (0, 0)%Q |}.

Definition at_location (v : vec3) : Xform :=
  mkXform (1, 0, 0)%R (0, 1, 0)%R (0, 0, 1)%R v.

(** Two bones, two frames: [root] moves along Y, [hip] rests. *)
Definition walk : Action :=
  mkAction "walk" (inject_Z 1, inject_Z 2)
           [(1, [("root", at_location (0, 0, 0)%R); ("hip", identity)]);
            (2, [("root", at_location (0, 10, 0)%R); ("hip", identity)])].

Definition walk_data : AnimData := mkAnimData (Some 0%nat) [].

Definition rig (ad : option AnimData) : Object :=
  mkObject "Armature" ARMATURE (mkArmature ["root"; "hip"]) 0%R ad
           [mkPoseBone "root" []; mkPoseBone "hip" []] true.

Definition walk_scene : Scene :=
  mkScene {[ 0%nat := rig (Some walk_data) ]} {[ 0%nat := walk ]} [0%nat] (Some 0%nat)
          OBJECT [].

(** The action keys a bone, [tail], that the armature does not have. *)
Definition stray : Action :=
  mkAction "stray" (inject_Z 1, inject_Z 2)
           [(1, [("root", identity); ("tail", identity)]);
            (2, [("root", identity); ("tail", identity)])].

Definition stray_scene : Scene :=
  mkScene {[ 0%nat := rig (Some walk_data) ]} {[ 0%nat := stray ]} [0%nat] (Some 0%nat)
          OBJECT [].

(** An action whose range ends before frame 1. *)
Definition early : Action :=
  mkAction "early" (inject_Z (-3), inject_Z 0)
           [(0, [("root", identity); ("hip", identity)])].

Definition early_scene : Scene :=
  mkScene {[ 0%nat := rig (Some walk_data) ]} {[ 0%nat := early ]} [0%nat] (Some 0%nat)
          OBJECT [].

(** An armature that was never animated, and one whose action was unlinked. *)
Definition bare_scene : Scene :=
  mkScene {[ 0%nat := rig None ]} ∅ [0%nat] (Some 0%nat) OBJECT [].

Definition idle_data : AnimData := mkAnimData None [].

Definition idle_scene : Scene :=
  mkScene {[ 0%nat := rig (Some idle_data) ]} ∅ [0%nat] (Some 0%nat) OBJECT [].

(** The active object is a mesh. *)
Definition cube : Object :=
  mkObject "Cube" MESH (mkArmature []) 0%R None [] true.

Definition cube_scene : Scene :=
  mkScene {[ 0%nat := cube ]} ∅ [0%nat] (Some 0%nat) OBJECT [].

(** ** Further vocabulary *)

(** The scene a run ends in, whether it returns or raises. *)
Definition outcome {A} (r : Result A) : Scene :=
  match r with
  | Ok _ s => s
  | Raise _ s => s
  end.

(** Where the script stops at line 62 when the action cannot be used: the
    copy already carries the renamed, still empty track. *)
Definition halted (s : Scene) (o : Object) (ad : AnimData) : Scene :=
  set_objects
    (<[updated_id s :=
         with_tracks (action ad) (nla_tracks ad ++ [mkNlaTrack (name o ++ "-original") []])
                     (copy_of "Updated" o)]>
       (objects (duplicated s o)))
    (duplicated s o).

(** The keys of the rebaked action in closed form: every frame 1..f1, every
    bone of the armature in order, the original transform turned by
    [ROTATION]. *)
Definition rotated_keys {solver : Sampler} (ROTATION : Z) (o : Object) (act : Action)
  : list (Z * list (string * Xform)) :=
  map (fun f => (f, map (fun pb => (bone_name pb,
                                    rotZ (radians ROTATION) (evaluate act f (bone_name pb))))
                        (pose_bones o)))
      (seqZ 1 (animation_length act)).

(** An action whose last frame is not a whole number. *)
Definition half : Action :=
  mkAction "half" (inject_Z 1, 5 # 2)
           [(1, [("root", identity); ("hip", identity)]);
            (2, [("root", at_location (0, 10, 0)%R); ("hip", identity)])].

Definition half_scene : Scene :=
  mkScene {[ 0%nat := rig (Some walk_data) ]} {[ 0%nat := half ]} [0%nat] (Some 0%nat)
          OBJECT [].

(** * Verification *)

(** ** Rotation about Z is a group action of the angles *)

Lemma rot_z_vec_compose a b v : rot_z_vec a (rot_z_vec b v) = rot_z_vec (a + b)%R v.
Proof.
  destruct v as [[x y] z]. unfold rot_z_vec. rewrite cos_plus, sin_plus.
  apply pair_equal_spec; split; [apply pair_equal_spec; split|]; ring.
Qed.

Lemma rot_z_vec_0 v : rot_z_vec 0 v = v.
Proof.
  destruct v as [[x y] z]. unfold rot_z_vec. rewrite cos_0, sin_0.
  apply pair_equal_spec; split; [apply pair_equal_spec; split|]; ring.
Qed.

Lemma rotZ_compose a b m : rotZ a (rotZ b m) = rotZ (a + b)%R m.
Proof. unfold rotZ; simpl. by rewrite !rot_z_vec_compose. Qed.

Lemma rotZ_0 m : rotZ 0 m = m.
Proof. destruct m. unfold rotZ; simpl. by rewrite !rot_z_vec_0. Qed.

Lemma rotZ_cancel a b m : rotZ (- a) (rotZ (a + b) m) = rotZ b m.
Proof. rewrite rotZ_compose. f_equal. ring. Qed.

Lemma radians_opp d : radians (- d) = (- radians d)%R.
Proof. unfold radians. rewrite opp_IZR. field. Qed.

Lemma copy_location_rotation own tgt :
  copy_location (copy_rotation own tgt) tgt = tgt.
Proof. by destruct tgt. Qed.

Lemma int_inject_Z z : int (inject_Z z) = z.
Proof. unfold int, inject_Z; simpl. apply Z.quot_1_r. Qed.

(** ** The identities handed out are fresh *)

Lemma bake_id_fresh s : objects s !! bake_id s = None.
Proof. apply not_elem_of_dom. unfold bake_id. apply is_fresh. Qed.

Lemma updated_id_fresh s : objects s !! updated_id s = None.
Proof.
  apply not_elem_of_dom. unfold updated_id.
  pose proof (is_fresh ({[bake_id s]} ∪ dom (objects s))) as Hf. set_solver.
Qed.

Lemma updated_id_bake_id s : updated_id s ≠ bake_id s.
Proof.
  unfold updated_id.
  pose proof (is_fresh ({[bake_id s]} ∪ dom (objects s))) as Hf. set_solver.
Qed.

Lemma rotated_id_fresh s : actions s !! rotated_id s = None.
Proof. apply not_elem_of_dom. unfold rotated_id. apply is_fresh. Qed.

(** ** Symbolic execution of the host operations *)

Ltac unfold_host :=
  unfold nla_tracks_new, track_set_name, strips_new, strip_set_name, modify_track,
    animation_data_clear, select_set, mode_set, select_all_DESELECT, object_delete,
    object_copy, data_copy, collection_objects_link, popup_menu, context_active_object,
    get_object, get_action, modify_object, attr, raise, ret, bind,
    set_objects, set_actions, set_collection, set_mode, set_popups,
    set_name, set_data, set_rotation_euler_z, set_animation_data, set_pose_bones,
    set_select.

Ltac scene_simpl :=
  cbn [objects actions collection active_object mode popups
       name type data rotation_euler_z animation_data pose_bones select
       action nla_tracks track_name strips strip_name strip_frame_start strip_action
       app alter list_alter length].

Ltac exec_with tac :=
  unfold_host; scene_simpl;
  repeat (first [ rewrite lookup_insert_eq
                | rewrite lookup_insert_ne by done
                | rewrite insert_insert_eq
                | tac ];
          scene_simpl).

Lemma alter_snoc {A} (f : A → A) (l : list A) (x : A) :
  alter f (length l) (l ++ [x]) = l ++ [f x].
Proof. induction l; simpl; [done|]. by f_equal. Qed.

Lemma lookup_snoc {A} (l : list A) (x : A) : (l ++ [x]) !! length l = Some x.
Proof. induction l; simpl; done. Qed.

Lemma delete_selected (m : gmap nat Object) (b : nat) (B : Object) :
  select B = true →
  filter (λ kv : nat * Object, select kv.2 = false) (<[b := B]> (set_select false <$> m))
  = delete b (set_select false <$> m).
Proof.
  intros HB. rewrite map_filter_insert_False by (simpl; congruence).
  apply map_filter_id. intros i x [_ Hx]%lookup_delete_Some.
  apply lookup_fmap_Some in Hx as (o & <- & _). reflexivity.
Qed.

Lemma filter_selected (s : Scene) (b : nat) (B : Object) (m : gmap nat Object)
      (l : list nat) :
  select B = true →
  objects s = <[b := B]> (set_select false <$> m) →
  List.filter (λ id, negb (is_selected s id)) l
  = List.filter (λ id, negb (Nat.eqb id b)) l.
Proof.
  intros HB Hs. apply List.filter_ext. intros id. f_equal. unfold is_selected.
  rewrite Hs. destruct (Nat.eqb_spec id b) as [->|Hne].
  - by rewrite lookup_insert_eq.
  - rewrite lookup_insert_ne by done. rewrite lookup_fmap.
    by destruct (m !! id).
Qed.

(** ** The phases of the script, one at a time *)

Section Phases.
Context {solver : Sampler}.
Variable ROTATION : Z.

Lemma duplicate_spec s p o :
  objects s !! p = Some o →
  duplicate p s =
  Ok (bake_id s, updated_id s)
     (set_collection (collection s ++ [bake_id s; updated_id s])
        (set_objects (<[updated_id s := copy_of "Updated" o]>
                        (<[bake_id s := copy_of "Bake" o]> (objects s))) s)).
Proof.
  intros Hp.
  assert (Hbp : bake_id s ≠ p) by (intros <-; rewrite bake_id_fresh in Hp; done).
  unfold duplicate, copy_of.
  exec_with ltac:(first [rewrite Hp | rewrite dom_insert_L];
                  fold (bake_id s); fold (updated_id s)).
  rewrite <- app_assoc. reflexivity.
Qed.

Lemma archive_original_spec s p u P U ad a act :
  objects s !! p = Some P →
  objects s !! u = Some U →
  p ≠ u →
  animation_data U = Some ad →
  action ad = Some a →
  actions s !! a = Some act →
  archive_original p u s =
  Ok tt (set_objects
           (<[u := with_tracks (Some a)
                     (nla_tracks ad ++
                      [archived_track (name P ++ "-original") "original"
                         (int (fst (frame_range act))) a]) U]>
              (objects s)) s).
Proof.
  intros Hp Hu Hpu Had Ha Hact. unfold archive_original, with_tracks, archived_track.
  exec_with ltac:(first [rewrite Hp | rewrite Hu | rewrite Had | rewrite Ha
                        | rewrite Hact | rewrite alter_snoc | rewrite lookup_snoc]).
  reflexivity.
Qed.

Lemma prepare_bake_spec s p b P B ad a act :
  objects s !! p = Some P →
  objects s !! b = Some B →
  p ≠ b →
  animation_data P = Some ad →
  action ad = Some a →
  actions s !! a = Some act →
  prepare_bake ROTATION p b s =
  Ok (int (snd (frame_range act)))
     (set_mode POSE
        (set_objects (<[b := pinned p B]> (<[p := turned ROTATION P]> (objects s))) s)).
Proof.
  intros Hp Hb Hpb Had Ha Hact. unfold prepare_bake, pinned, turned.
  exec_with ltac:(first [rewrite Hp | rewrite Hb | rewrite Had | rewrite Ha
                        | rewrite Hact]).
  rewrite (insert_insert_ne _ p b) by done. rewrite insert_insert_eq.
  reflexivity.
Qed.

Lemma nla_bake_fresh_spec s b B frame_start frame_end :
  objects s !! b = Some B →
  animation_data B = None →
  nla_bake b frame_start frame_end s =
  Ok tt (set_objects (<[b := baked (fresh (dom (actions s))) B]> (objects s))
           (set_actions
              (<[fresh (dom (actions s)) :=
                   mkAction "Action" (baked_range frame_start frame_end)
                            (baked_keyframes s B frame_start frame_end)]>
                 (actions s)) s)).
Proof.
  intros Hb Had. unfold nla_bake, baked, baked_range.
  exec_with ltac:(first [rewrite Hb | rewrite Had]).
  reflexivity.
Qed.

Lemma archive_rotated_and_cleanup_spec s p b u P B U bad r ract uad :
  objects s !! p = Some P →
  objects s !! b = Some B →
  objects s !! u = Some U →
  p ≠ b → p ≠ u → b ≠ u →
  animation_data B = Some bad →
  action bad = Some r →
  actions s !! r = Some ract →
  animation_data U = Some uad →
  archive_rotated_and_cleanup ROTATION p b u s =
  Ok tt
     (set_mode OBJECT
        (set_collection (List.filter (fun id => negb (Nat.eqb id b)) (collection s))
           (set_objects
              (<[u := archived (name P ++ "-updated")
                        (archived_track (name P ++ "-" ++ str ROTATION) (str ROTATION)
                           (int (fst (frame_range ract))) r) uad U]>
                 (delete b (set_select false <$>
                              <[p := turned (- ROTATION) P]> (objects s)))) s))).
Proof.
  intros Hp Hb Hu Hpb Hpu Hbu Had Ha Hact Huad.
  unfold archive_rotated_and_cleanup, archived, archived_track, turned.
  exec_with ltac:(first [rewrite Hp | rewrite Hb | rewrite Hu | rewrite Had | rewrite Ha
                        | rewrite Hact | rewrite Huad
                        | rewrite alter_snoc | rewrite lookup_snoc
                        | rewrite delete_selected by reflexivity
                        | rewrite lookup_delete_ne by done
                        | rewrite lookup_fmap
                        | progress cbn [fmap option_fmap option_map] ]).
  unfold set_select; scene_simpl.
  erewrite filter_selected; [ | | cbn [objects]; reflexivity]; [|reflexivity].
  do 2 f_equal. apply map_eq; intros i.
  destruct (decide (i = u)) as [->|Hiu]; [by rewrite !lookup_insert_eq|].
  rewrite !lookup_insert_ne by done.
  destruct (decide (i = b)) as [->|Hib]; [by rewrite !lookup_delete_eq|].
  rewrite !lookup_delete_ne by done. rewrite !lookup_fmap.
  destruct (decide (i = p)) as [->|Hip]; [by rewrite !lookup_insert_eq|].
  by rewrite !lookup_insert_ne by done.
Qed.

End Phases.

(** ** The whole run *)

Section Run.
Context {solver : Sampler}.
Variable ROTATION : Z.

Lemma setup_spec s p o ad a act :
  ready s p o ad a act →
  setup ROTATION p s =
  Ok (bake_id s, updated_id s, animation_length act) (prepared ROTATION s p o ad a act).
Proof.
  intros (Hact & Hp & Hty & Had & Ha & Hac).
  assert (Hbp : p ≠ bake_id s) by (intros ->; rewrite bake_id_fresh in Hp; done).
  assert (Hup : p ≠ updated_id s) by (intros ->; rewrite updated_id_fresh in Hp; done).
  pose proof (updated_id_bake_id s) as Hub.
  unfold setup, bind. rewrite (duplicate_spec s p o Hp).
  erewrite (archive_original_spec _ p (updated_id s) o (copy_of "Updated" o) ad a act);
    [ | unfold set_collection, set_objects; cbn [objects actions]..]; cycle 1.
  { by rewrite !lookup_insert_ne. }
  { by rewrite lookup_insert_eq. }
  { done. } { done. } { done. } { done. }
  erewrite (prepare_bake_spec ROTATION _ p (bake_id s) o (copy_of "Bake" o) ad a act);
    [ | unfold set_collection, set_objects; cbn [objects actions]..]; cycle 1.
  { by rewrite !lookup_insert_ne. }
  { rewrite lookup_insert_ne by done. rewrite lookup_insert_ne by done. by rewrite lookup_insert_eq. }
  { done. } { done. } { done. } { done. }
  unfold ret, prepared, duplicated, updated_original, animation_length, original_track.
  unfold set_mode, set_collection, set_objects; cbn [objects actions collection active_object mode popups].
  rewrite insert_insert_eq. reflexivity.
Qed.

Lemma prepared_actions s p o ad a act : actions (prepared ROTATION s p o ad a act) = actions s.
Proof. reflexivity. Qed.

Section Lookups.
Variables (s : Scene) (p : nat) (o : Object) (ad : AnimData) (a : nat) (act : Action).
Hypothesis Hready : ready s p o ad a act.

Lemma ready_distinct :
  p ≠ bake_id s ∧ p ≠ updated_id s ∧ bake_id s ≠ updated_id s.
Proof.
  destruct Hready as (_ & Hp & _). repeat split.
  - intros ->. by rewrite bake_id_fresh in Hp.
  - intros ->. by rewrite updated_id_fresh in Hp.
  - intros Heq. by apply (updated_id_bake_id s).
Qed.

Lemma prepared_parent :
  objects (prepared ROTATION s p o ad a act) !! p = Some (turned ROTATION o).
Proof.
  destruct ready_distinct as (? & ? & ?). unfold prepared, set_mode, set_objects.
  cbn [objects]. rewrite lookup_insert_ne by done. by rewrite lookup_insert_eq.
Qed.

Lemma prepared_bake :
  objects (prepared ROTATION s p o ad a act) !! bake_id s = Some (pinned p (copy_of "Bake" o)).
Proof. unfold prepared, set_mode, set_objects. cbn [objects]. by rewrite lookup_insert_eq. Qed.

Lemma prepared_updated :
  objects (prepared ROTATION s p o ad a act) !! updated_id s = Some (updated_original o ad a act).
Proof.
  destruct ready_distinct as (? & ? & ?). unfold prepared, set_mode, set_objects.
  cbn [objects]. rewrite !lookup_insert_ne by done. by rewrite lookup_insert_eq.
Qed.

Lemma prepared_other k :
  k ≠ p → k ≠ bake_id s → k ≠ updated_id s →
  objects (prepared ROTATION s p o ad a act) !! k = objects s !! k.
Proof.
  intros. unfold prepared, duplicated, set_mode, set_objects, set_collection.
  cbn [objects]. by rewrite !lookup_insert_ne by done.
Qed.
End Lookups.

Lemma rotate_armature_spec s p o ad a act :
  ready s p o ad a act →
  rotate_armature ROTATION p s = Ok tt (finished ROTATION s p o ad a act).
Proof.
  intros Hready. pose proof (ready_distinct _ _ _ _ _ _ Hready) as (Hpb & Hpu & Hbu).
  unfold rotate_armature, bind at 1. rewrite (setup_spec _ _ _ _ _ _ Hready).
  unfold bind.
  rewrite (nla_bake_fresh_spec _ (bake_id s) (pinned p (copy_of "Bake" o)));
    [ | by apply prepared_bake | reflexivity ].
  rewrite prepared_actions. fold (rotated_id s).
  erewrite (archive_rotated_and_cleanup_spec ROTATION _ p (bake_id s) (updated_id s)
             (turned ROTATION o) (baked (rotated_id s) (pinned p (copy_of "Bake" o)))
             (updated_original o ad a act) (mkAnimData (Some (rotated_id s)) [])
             (rotated_id s) (rotated_action ROTATION s p o ad a act)
             (mkAnimData (Some a) (nla_tracks ad ++ [original_track o a act])));
    try done.
  - unfold set_objects, set_actions; cbn [objects]. rewrite lookup_insert_ne by done.
    by apply prepared_parent.
  - unfold set_objects, set_actions; cbn [objects]. by rewrite lookup_insert_eq.
  - unfold set_objects, set_actions; cbn [objects]. rewrite lookup_insert_ne by done.
    by apply prepared_updated.
  - unfold set_objects, set_actions; cbn [actions]. by rewrite lookup_insert_eq.
Qed.

Lemma script_spec s p o ad a act :
  ready s p o ad a act →
  script ROTATION s = Ok tt (finished ROTATION s p o ad a act).
Proof.
  intros Hready. pose proof Hready as (Hact & Hp & Hty & _).
  unfold script, bind, context_active_object, attr, ret, get_object.
  rewrite Hact, Hp, Hty. rewrite bool_decide_eq_false_2 by (intros Hne; by apply Hne).
  by apply rotate_armature_spec.
Qed.

Section Final.
Variables (s : Scene) (p : nat) (o : Object) (ad : AnimData) (a : nat) (act : Action).
Hypothesis Hready : ready s p o ad a act.

Lemma finished_updated :
  objects (finished ROTATION s p o ad a act) !! updated_id s =
  Some (archived (name o ++ "-updated")
          (rotated_track ROTATION o (rotated_id s) (rotated_action ROTATION s p o ad a act))
          (mkAnimData (Some a) (nla_tracks ad ++ [original_track o a act]))
          (updated_original o ad a act)).
Proof. unfold finished, set_mode, set_collection, set_objects. cbn [objects]. by rewrite lookup_insert_eq. Qed.

Lemma finished_bake : objects (finished ROTATION s p o ad a act) !! bake_id s = None.
Proof.
  destruct (ready_distinct _ _ _ _ _ _ Hready) as (? & ? & ?).
  unfold finished, set_mode, set_collection, set_objects. cbn [objects].
  rewrite lookup_insert_ne by done. by rewrite lookup_delete_eq.
Qed.

Lemma finished_parent :
  objects (finished ROTATION s p o ad a act) !! p =
  Some (set_select false (turned (- ROTATION) (turned ROTATION o))).
Proof.
  destruct (ready_distinct _ _ _ _ _ _ Hready) as (? & ? & ?).
  unfold finished, set_mode, set_collection, set_objects. cbn [objects].
  rewrite lookup_insert_ne by done. rewrite lookup_delete_ne by done.
  rewrite lookup_fmap. by rewrite lookup_insert_eq.
Qed.

Lemma finished_other k :
  k ≠ p → k ≠ bake_id s → k ≠ updated_id s →
  objects (finished ROTATION s p o ad a act) !! k = set_select false <$> objects s !! k.
Proof.
  intros. unfold finished, set_mode, set_collection, set_objects. cbn [objects].
  rewrite lookup_insert_ne by done. rewrite lookup_delete_ne by done.
  rewrite lookup_fmap. rewrite !lookup_insert_ne by done.
  by rewrite (prepared_other s p o ad a act).
Qed.

Lemma finished_actions :
  actions (finished ROTATION s p o ad a act) =
  <[rotated_id s := rotated_action ROTATION s p o ad a act]> (actions s).
Proof. reflexivity. Qed.

Lemma finished_collection :
  collection (finished ROTATION s p o ad a act) =
  List.filter (fun id => negb (Nat.eqb id (bake_id s))) (collection s) ++ [updated_id s].
Proof.
  unfold finished, prepared, duplicated, set_mode, set_collection, set_objects.
  cbn [collection]. rewrite List.filter_app. f_equal. cbn [List.filter].
  rewrite Nat.eqb_refl. cbn [negb].
  destruct (Nat.eqb_spec (updated_id s) (bake_id s)) as [Heq|_]; [|done].
  by apply updated_id_bake_id in Heq.
Qed.
End Final.

(** *** What the bake records *)

Lemma fold_pinned s f p cs name w tgt :
  constraint_target s (mkConstraint COPY_ROTATION (Some p) name 1) f = Some tgt →
  fold_left (apply_constraint s f) (constraints (pin_bone p (mkPoseBone name cs))) w = tgt.
Proof.
  intros Htgt. unfold pin_bone. cbn [constraints bone_name].
  rewrite fold_left_app. cbn [fold_left].
  unfold apply_constraint at 1 2.
  unfold constraints_new, set_target, set_subtarget, set_influence. cbn [ctype target subtarget influence].
  assert (Htgt' : constraint_target s (mkConstraint COPY_LOCATION (Some p) name 1) f = Some tgt) by exact Htgt.
  rewrite Htgt, Htgt'. cbn [ctype influence]. 
  change (Qeq_bool 1 1) with true. cbv iota.
  apply copy_location_rotation.
Qed.

Lemma assoc_map_Some {A K V} `{EqDecision K} (key : A → K) (val : A → V)
      (l : list A) (k : K) (v : V) :
  (∃ x, x ∈ l ∧ key x = k) →
  (∀ x, x ∈ l → key x = k → val x = v) →
  assoc k (map (fun x => (key x, val x)) l) = Some v.
Proof.
  induction l as [|y l IH]; intros (x & Hx & Hk) Hval.
  - by apply elem_of_nil in Hx.
  - cbn [map assoc]. destruct (decide (k = key y)) as [->|Hne].
    + f_equal. apply Hval; [left | done].
    + apply IH.
      * exists x. split; [|done]. apply elem_of_cons in Hx as [->|Hx]; [congruence|done].
      * intros z Hz. apply Hval. by right.
Qed.

Section Recorded.
Variables (s : Scene) (p : nat) (o : Object) (ad : AnimData) (a : nat) (act : Action).
Hypothesis Hready : ready s p o ad a act.

Lemma prepared_target pb f :
  pb ∈ pose_bones o →
  constraint_target (prepared ROTATION s p o ad a act)
                    (mkConstraint COPY_ROTATION (Some p) (bone_name pb) 1) f =
  Some (rotZ (rotation_euler_z o + radians ROTATION) (evaluate act f (bone_name pb))).
Proof.
  intros Hpb. destruct Hready as (_ & _ & _ & Had & Ha & Hact).
  unfold constraint_target. cbn [target subtarget]. rewrite (prepared_parent _ _ _ _ _ _ Hready).
  unfold has_bone, turned, set_rotation_euler_z. cbn [pose_bones].
  rewrite bool_decide_eq_true_2 by (apply list_elem_of_fmap; eauto).
  unfold world_matrix, pose_matrix, active_action. cbn [rotation_euler_z animation_data].
  rewrite Had, Ha, prepared_actions, Hact. reflexivity.
Qed.

Lemma prepared_visual pb f :
  pb ∈ pose_bones o →
  visual_matrix (prepared ROTATION s p o ad a act) (pinned p (copy_of "Bake" o))
                (pin_bone p pb) f =
  rotZ (radians ROTATION) (evaluate act f (bone_name pb)).
Proof.
  intros Hpb. unfold visual_matrix. destruct pb as [nm cs].
  rewrite (fold_pinned _ _ _ _ _ _ _ (prepared_target (mkPoseBone nm cs) f Hpb)).
  cbn [pinned copy_of set_select set_animation_data set_pose_bones set_name set_data
       rotation_euler_z bone_name].
  apply rotZ_cancel.
Qed.

Lemma rotated_key pb f :
  pb ∈ pose_bones o →
  1 <= f <= animation_length act →
  lookup_key (rotated_action ROTATION s p o ad a act) f (bone_name pb) =
  Some (rotZ (radians ROTATION) (evaluate act f (bone_name pb))).
Proof.
  intros Hpb Hf. unfold lookup_key, rotated_action, baked_keyframes, bake_frames.
  cbn [keyframes].
  rewrite (assoc_map_Some (fun f => f) (baked_pose (prepared ROTATION s p o ad a act) (pinned p (copy_of "Bake" o))) _ f
             (baked_pose (prepared ROTATION s p o ad a act) (pinned p (copy_of "Bake" o)) f)).
  - unfold baked_pose.
    cbn [pinned copy_of set_select set_animation_data set_pose_bones set_name set_data pose_bones].
    apply assoc_map_Some.
    + exists (pin_bone p pb). split; [|done]. apply list_elem_of_fmap. eauto.
    + intros x (y & -> & Hy)%list_elem_of_fmap Hname. cbn [pin_bone bone_name] in Hname.
      rewrite (prepared_visual y f Hy). by rewrite Hname.
  - exists f. split; [|done]. apply elem_of_seqZ. lia.
  - by intros x _ ->.
Qed.
End Recorded.
End Run.

(** ** The paths on which the script stops early *)

Section Failures.
Context {solver : Sampler}.
Variable ROTATION : Z.

Lemma script_enters s p o :
  active_object s = Some p → objects s !! p = Some o → type o = ARMATURE →
  script ROTATION s = rotate_armature ROTATION p s.
Proof.
  intros Hact Hp Hty. unfold script, bind, context_active_object, attr, ret, get_object.
  rewrite Hact, Hp, Hty. by rewrite bool_decide_eq_false_2 by (intros Hne; by apply Hne).
Qed.

Lemma duplicated_updated s p o :
  objects s !! p = Some o →
  objects (duplicated s o) !! updated_id s = Some (copy_of "Updated" o).
Proof.
  intros _. unfold duplicated, set_collection, set_objects. cbn [objects].
  by rewrite lookup_insert_eq.
Qed.

Lemma duplicated_bake s o :
  objects (duplicated s o) !! bake_id s = Some (copy_of "Bake" o).
Proof.
  unfold duplicated, set_collection, set_objects. cbn [objects].
  rewrite lookup_insert_ne by apply updated_id_bake_id. by rewrite lookup_insert_eq.
Qed.

Lemma duplicated_parent s p o :
  objects s !! p = Some o → objects (duplicated s o) !! p = Some o.
Proof.
  intros Hp. unfold duplicated, set_collection, set_objects. cbn [objects].
  rewrite !lookup_insert_ne; [done| |].
  - intros Heq. rewrite <- Heq, bake_id_fresh in Hp. done.
  - intros Heq. rewrite <- Heq, updated_id_fresh in Hp. done.
Qed.

Lemma script_no_animation_data s p o :
  active_object s = Some p → objects s !! p = Some o → type o = ARMATURE →
  animation_data o = None →
  script ROTATION s = Raise (AttributeError "action") (duplicated s o).
Proof.
  intros Hact Hp Hty Had. rewrite (script_enters s p o) by done.
  unfold rotate_armature, setup, bind. rewrite (duplicate_spec s p o Hp).
  fold (duplicated s o). unfold archive_original, bind, get_object.
  rewrite (duplicated_updated s p o Hp). unfold copy_of.
  cbn [animation_data set_name set_data set_select]. rewrite Had. reflexivity.
Qed.

Lemma script_no_action s p o ad :
  active_object s = Some p → objects s !! p = Some o → type o = ARMATURE →
  animation_data o = Some ad → action ad = None →
  script ROTATION s = Raise (AttributeError "frame_range") (stranded s o ad).
Proof.
  intros Hact Hp Hty Had Ha. rewrite (script_enters s p o) by done.
  assert (Hpu : updated_id s ≠ p) by (intros Heq; rewrite <- Heq, updated_id_fresh in Hp; done).
  unfold rotate_armature, setup, bind. rewrite (duplicate_spec s p o Hp).
  fold (duplicated s o). unfold archive_original, stranded, with_tracks.
  pose proof (duplicated_updated s p o Hp) as Hu.
  pose proof (duplicated_parent s p o Hp) as Hp'.
  unfold copy_of, set_name, set_data, set_select in Hu.
  cbn [name type data rotation_euler_z animation_data pose_bones select] in Hu.
  exec_with ltac:(first [rewrite Hu | rewrite Hp' | rewrite Had | rewrite Ha
                        | rewrite alter_snoc | rewrite lookup_snoc]).
  reflexivity.
Qed.

End Failures.

(** ** The claims *)

Section Claims.
Context {solver : Sampler}.
Variable ROTATION : Z.

Lemma finished_archived_actions s p o ad a act :
  ready s p o ad a act →
  archived_actions (finished ROTATION s p o ad a act) (updated_id s) =
  flat_map (fun tr => map strip_action (strips tr)) (nla_tracks ad) ++ [a; rotated_id s].
Proof.
  intros Hready. unfold archived_actions.
  rewrite (finished_updated ROTATION s p o ad a act).
  unfold archived, rotated_track, original_track, archived_track.
  cbn [animation_data set_name set_select set_animation_data nla_tracks].
  rewrite <- app_assoc. rewrite flat_map_app. reflexivity.
Qed.

Lemma pinned_bones p o :
  ∀ pb', pb' ∈ pose_bones (pinned p (copy_of "Bake" o)) →
    ∃ pb, pb ∈ pose_bones o ∧ bone_name pb' = bone_name pb ∧
          constraints pb' =
          constraints pb ++ [mkConstraint COPY_ROTATION (Some p) (bone_name pb) 1;
                             mkConstraint COPY_LOCATION (Some p) (bone_name pb) 1].
Proof.
  intros pb' Hpb'. cbn in Hpb'. apply list_elem_of_fmap in Hpb' as (pb & -> & Hpb).
  exists pb. done.
Qed.





End Claims.

Section MoreClaims.
Context {solver : Sampler}.
Variable ROTATION : Z.


(** C6.  When the active object is not an armature the script shows the error
    pop-up and does nothing else: objects, actions, collection, selection
    and mode are as before. *)
Theorem C6_not_an_armature s p o :
  active_object s = Some p →
  objects s !! p = Some o →
  type o ≠ ARMATURE →
  ∃ s',
    script ROTATION s = Ok tt s' ∧
    popups s' = popups s ++
                [mkPopup "Error" "ERROR" "The selected object is not an armature."] ∧
    objects s' = objects s ∧ actions s' = actions s ∧
    collection s' = collection s ∧ active_object s' = active_object s ∧
    mode s' = mode s.
Proof.
  intros Hact Hp Hty. eexists. split.
  - unfold script, bind, context_active_object, attr, ret, get_object.
    rewrite Hact, Hp. rewrite bool_decide_eq_true_2 by done. reflexivity.
  - done.
Qed.

(** C7 (amended).  On the successful path the scratch 'Bake' armature is
    deleted before the script ends: it is in no collection and no longer
    exists. *)
Theorem C7_bake_deleted_on_success s p o ad a act :
  ready s p o ad a act →
  ∃ s',
    script ROTATION s = Ok tt s' ∧
    objects s' !! bake_id s = None ∧
    bake_id s ∉ collection s'.
Proof.
  intros Hready. exists (finished ROTATION s p o ad a act).
  split; [by apply script_spec|]. split; [by apply finished_bake|].
  rewrite finished_collection. intros [Hin|Hin]%elem_of_app.
  - apply list_elem_of_In, List.filter_In in Hin as [_ Hin].
    by rewrite Nat.eqb_refl in Hin.
  - apply list_elem_of_singleton in Hin. by apply (updated_id_bake_id s).
Qed.



End MoreClaims.

Section RoundTrip.
Context {solver : Sampler}.
Variable ROTATION : Z.

Lemma evaluate_key (act : Action) f b m :
  lookup_key act f b = Some m → evaluate act f b = m.
Proof. intros Hk. unfold evaluate. by rewrite Hk. Qed.


End RoundTrip.

(** ** The claims on the sample scenes *)

Lemma radians_90_pos : (0 < radians 90)%R.
Proof. unfold radians. pose proof PI_RGT_0. lra. Qed.

Lemma sin_radians_90 : sin (radians 90) = 1%R.
Proof.
  replace (radians 90) with (PI / 2)%R by (unfold radians; field). apply sin_PI2.
Qed.

Lemma walk_ready : ready walk_scene 0%nat (rig (Some walk_data)) walk_data 0%nat walk.
Proof. repeat split; reflexivity. Qed.

Lemma radians_180 : radians 180 = PI.
Proof. unfold radians. field. Qed.

(** The end-to-end example: [root] travels from (0,0,0) to (0,10,0); rebaked by
    180 degrees it travels to (0,-10,0). *)
Example walk_root_half_turn :
  ∃ s' ract,
    script (solver := rest_sampler) 180 walk_scene = Ok tt s' ∧
    actions s' !! rotated_id walk_scene = Some ract ∧
    location <$> lookup_key ract 1 "root" = Some (0, 0, 0)%R ∧
    location <$> lookup_key ract 2 "root" = Some (0, -10, 0)%R.
Proof.
  exists (finished (solver := rest_sampler) 180 walk_scene 0%nat (rig (Some walk_data))
                   walk_data 0%nat walk),
         (rotated_action (solver := rest_sampler) 180 walk_scene 0%nat
                         (rig (Some walk_data)) walk_data 0%nat walk).
  split; [apply script_spec, walk_ready|].
  split; [by rewrite finished_actions, lookup_insert_eq|].
  assert (Hroot : mkPoseBone "root" [] ∈ pose_bones (rig (Some walk_data))) by (cbn; left).
  split.
  - rewrite (rotated_key 180 _ _ _ _ _ _ walk_ready (mkPoseBone "root" []) 1 Hroot)
      by (vm_compute; split; discriminate).
    change (evaluate walk 1 "root") with (at_location (0, 0, 0)%R).
    rewrite radians_180. unfold rotZ, at_location, rot_z_vec.
    cbn [fmap option_fmap option_map location]. rewrite cos_PI, sin_PI.
    f_equal. apply pair_equal_spec; split; [apply pair_equal_spec; split|]; ring.
  - rewrite (rotated_key 180 _ _ _ _ _ _ walk_ready (mkPoseBone "root" []) 2 Hroot)
      by (vm_compute; split; discriminate).
    change (evaluate walk 2 "root") with (at_location (0, 10, 0)%R).
    rewrite radians_180. unfold rotZ, at_location, rot_z_vec.
    cbn [fmap option_fmap option_map location]. rewrite cos_PI, sin_PI.
    f_equal. apply pair_equal_spec; split; [apply pair_equal_spec; split|]; ring.
Qed.








(** Archival is not all-or-nothing on the script's own failure path: with
    animation data but no active action, the "-original" track is already on
    the copy when line 62 raises. *)
Example idle_scene_partial_archival :
  ∃ s' U ad',
    script (solver := rest_sampler) 180 idle_scene = Raise (AttributeError "frame_range") s' ∧
    objects s' !! updated_id idle_scene = Some U ∧
    animation_data U = Some ad' ∧
    track_name <$> nla_tracks ad' = ["Armature-original"].
Proof.
  eexists _, _, _. split.
  - apply (script_no_action 180 idle_scene 0%nat (rig (Some idle_data)) idle_data);
      reflexivity.
  - split.
    { unfold stranded, set_objects. cbn [objects]. by rewrite lookup_insert_eq. }
    split; reflexivity.
Qed.

(** C6 on a scene whose active object is a mesh. *)
Lemma C6_not_an_armature_witness :
  ∃ s',
    script (solver := rest_sampler) 180 cube_scene = Ok tt s' ∧
    popups s' = popups cube_scene ++
                [mkPopup "Error" "ERROR" "The selected object is not an armature."] ∧
    objects s' = objects cube_scene ∧ actions s' = actions cube_scene ∧
    collection s' = collection cube_scene ∧
    active_object s' = active_object cube_scene ∧
    mode s' = mode cube_scene.
Proof.
  apply (C6_not_an_armature (solver := rest_sampler) 180 cube_scene 0%nat cube).
  - reflexivity.
  - reflexivity.
  - discriminate.
Defined.

(** C7 as stated fails: for an armature that was never animated the script
    raises at line 59 and 'Bake' is still linked in the scene. *)
Lemma C7_counterexample :
  ∃ e s' B,
    script (solver := rest_sampler) 180 bare_scene = Raise e s' ∧
    objects s' !! bake_id bare_scene = Some B ∧ name B = "Bake" ∧
    bake_id bare_scene ∈ collection s'.
Proof.
  exists (AttributeError "action"), (duplicated bare_scene (rig None)),
         (copy_of "Bake" (rig None)).
  split.
  - apply (script_no_animation_data 180 bare_scene 0%nat (rig None)); reflexivity.
  - split; [apply duplicated_bake|]. split; [reflexivity|].
    cbn. set_solver.
Qed.

(** C7 (amended) on the sample walk. *)
Lemma C7_bake_deleted_on_success_witness :
  ∃ s',
    script (solver := rest_sampler) 180 walk_scene = Ok tt s' ∧
    objects s' !! bake_id walk_scene = None ∧
    bake_id walk_scene ∉ collection s'.
Proof.
  apply (C7_bake_deleted_on_success (solver := rest_sampler) 180 walk_scene 0%nat
           (rig (Some walk_data)) walk_data 0%nat walk).
  repeat split; reflexivity.
Defined.




(** * Further properties of the script *)

Section Effects.
Context {solver : Sampler}.
Variable ROTATION : Z.

Lemma rotated_keyframes_closed s p o ad a act :
  ready s p o ad a act →
  keyframes (rotated_action ROTATION s p o ad a act) = rotated_keys ROTATION o act.
Proof.
  intros Hready. unfold rotated_action, rotated_keys, baked_keyframes, bake_frames.
  cbn [keyframes]. replace (animation_length act - 1 + 1) with (animation_length act) by lia.
  apply map_ext. intros f. f_equal. unfold baked_pose.
  change (pose_bones (pinned p (copy_of "Bake" o))) with (map (pin_bone p) (pose_bones o)).
  rewrite map_map. apply map_ext_in. intros pb Hpb%list_elem_of_In.
  by rewrite (prepared_visual ROTATION s p o ad a act Hready pb f Hpb).
Qed.

Lemma assoc_map_None {A K V} `{EqDecision K} (key : A → K) (val : A → V)
      (l : list A) (k : K) :
  k ∉ map key l → assoc k (map (fun x => (key x, val x)) l) = None.
Proof.
  induction l as [|y l IH]; intros Hk; [done|].
  cbn [map assoc]. cbn [map] in Hk. apply not_elem_of_cons in Hk as [Hne Hk].
  rewrite decide_False by done. by apply IH.
Qed.

Lemma rotated_keys_outside o act f b :
  f < 1 ∨ animation_length act < f →
  lookup_key (mkAction "Action" (baked_range 1 (animation_length act))
                       (rotated_keys ROTATION o act)) f b = None.
Proof.
  intros Hf. unfold lookup_key, rotated_keys. cbn [keyframes].
  rewrite (assoc_map_None (fun f => f)); [done|].
  rewrite map_id. intros Hin%elem_of_seqZ. lia.
Qed.

Lemma rotated_keys_other_bone o act f b :
  b ∉ bone_name <$> pose_bones o →
  lookup_key (mkAction "Action" (baked_range 1 (animation_length act))
                       (rotated_keys ROTATION o act)) f b = None.
Proof.
  intros Hb. unfold lookup_key, rotated_keys. cbn [keyframes].
  destruct (decide (1 <= f <= animation_length act)) as [Hf|Hf].
  - rewrite (assoc_map_Some (fun f => f) _ _ f
               (map (fun pb => (bone_name pb,
                                rotZ (radians ROTATION) (evaluate act f (bone_name pb))))
                    (pose_bones o))).
    + by apply assoc_map_None.
    + exists f. split; [|done]. apply elem_of_seqZ. lia.
    + by intros x _ ->.
  - rewrite (assoc_map_None (fun f => f)); [done|].
    rewrite map_id. intros Hin%elem_of_seqZ. lia.
Qed.

Lemma rotated_action_eq s p o ad a act :
  ready s p o ad a act →
  rotated_action ROTATION s p o ad a act =
  mkAction "Action" (baked_range 1 (animation_length act)) (rotated_keys ROTATION o act).
Proof.
  intros Hready. rewrite <- (rotated_keyframes_closed s p o ad a act Hready). reflexivity.
Qed.




Lemma finished_dom_objects s p o ad a act :
  ready s p o ad a act →
  dom (objects (finished ROTATION s p o ad a act)) = dom (objects s) ∪ {[updated_id s]}.
Proof.
  intros Hready. pose proof Hready as (_ & Hp & _).
  pose proof (bake_id_fresh s) as Hb%not_elem_of_dom.
  assert (Hpd : p ∈ dom (objects s)) by (apply elem_of_dom; eauto).
  unfold finished, prepared, duplicated, set_mode, set_collection, set_objects.
  cbn [objects].
  rewrite !dom_insert_L, dom_delete_L, dom_fmap_L, !dom_insert_L.
  set_solver.
Qed.

(** X4.  A successful run adds exactly one object (the kept copy) and exactly
    one action (the rebaked one) to the host's stores, both under new
    identities; it ends in object mode and leaves the active object and the
    pop-ups as they were. *)
Theorem run_adds_one_object_one_action s p o ad a act :
  ready s p o ad a act →
  ∃ s',
    script ROTATION s = Ok tt s' ∧
    (dom (objects s') = dom (objects s) ∪ {[updated_id s]}) ∧
    (updated_id s ∉ dom (objects s)) ∧
    (dom (actions s') = dom (actions s) ∪ {[rotated_id s]}) ∧
    (rotated_id s ∉ dom (actions s)) ∧
    mode s' = OBJECT ∧ active_object s' = active_object s ∧ popups s' = popups s.
Proof.
  intros Hready. exists (finished ROTATION s p o ad a act).
  split; [by apply script_spec|].
  split; [by apply finished_dom_objects|].
  split; [apply not_elem_of_dom, updated_id_fresh|].
  split. { rewrite finished_actions, dom_insert_L. set_solver. }
  split; [apply not_elem_of_dom, rotated_id_fresh|]. done.
Qed.

(** X5.  After a successful run nothing is selected: the selection the user
    made is gone. *)
Theorem run_clears_selection s p o ad a act :
  ready s p o ad a act →
  ∃ s',
    script ROTATION s = Ok tt s' ∧
    ∀ k o', objects s' !! k = Some o' → select o' = false.
Proof.
  intros Hready. exists (finished ROTATION s p o ad a act).
  split; [by apply script_spec|]. intros k o' Hk.
  destruct (decide (k = updated_id s)) as [->|Hu].
  { rewrite (finished_updated ROTATION s p o ad a act) in Hk. by injection Hk as <-. }
  destruct (decide (k = bake_id s)) as [->|Hb].
  { by rewrite (finished_bake ROTATION s p o ad a act Hready) in Hk. }
  destruct (decide (k = p)) as [->|Hp].
  { rewrite (finished_parent ROTATION s p o ad a act Hready) in Hk. by injection Hk as <-. }
  rewrite (finished_other ROTATION s p o ad a act k) in Hk by done.
  apply fmap_Some in Hk as (x & _ & ->). done.
Qed.

Lemma script_dangling_action s p o ad a :
  active_object s = Some p → objects s !! p = Some o → type o = ARMATURE →
  animation_data o = Some ad → action ad = Some a → actions s !! a = None →
  script ROTATION s = Raise ReferenceError (halted s o ad).
Proof.
  intros Hact Hp Hty Had Ha Hnone. rewrite (script_enters ROTATION s p o) by done.
  assert (Hpu : updated_id s ≠ p)
    by (intros Heq; rewrite <- Heq, updated_id_fresh in Hp; done).
  unfold rotate_armature, setup, bind. rewrite (duplicate_spec s p o Hp).
  fold (duplicated s o). unfold archive_original, halted, with_tracks, copy_of.
  pose proof (duplicated_updated s p o Hp) as Hu.
  pose proof (duplicated_parent s p o Hp) as Hp'.
  assert (Hnone' : actions (duplicated s o) !! a = None) by exact Hnone.
  unfold copy_of, set_name, set_data, set_select in Hu.
  cbn [name type data rotation_euler_z animation_data pose_bones select] in Hu.
  exec_with ltac:(first [rewrite Hu | rewrite Hp' | rewrite Had | rewrite Ha
                        | rewrite Hnone'
                        | rewrite alter_snoc | rewrite lookup_snoc]).
  reflexivity.
Qed.

Lemma duplicated_existing s o k x :
  objects s !! k = Some x → objects (duplicated s o) !! k = Some x.
Proof.
  intros Hk. unfold duplicated, set_collection, set_objects. cbn [objects].
  rewrite !lookup_insert_ne; [done| |].
  - intros Heq. rewrite <- Heq, bake_id_fresh in Hk. done.
  - intros Heq. rewrite <- Heq, updated_id_fresh in Hk. done.
Qed.

Lemma halted_existing s o ad k x :
  objects s !! k = Some x → objects (halted s o ad) !! k = Some x.
Proof.
  intros Hk. unfold halted, set_objects. cbn [objects].
  rewrite lookup_insert_ne; [by apply duplicated_existing|].
  intros Heq. rewrite <- Heq, updated_id_fresh in Hk. done.
Qed.

Lemma stranded_halted s o ad : action ad = None → stranded s o ad = halted s o ad.
Proof. intros Ha. unfold stranded, halted. by rewrite Ha. Qed.

Lemma turned_back o :
  set_select false (turned (- ROTATION) (turned ROTATION o)) = set_select false o.
Proof.
  unfold turned, set_select, set_rotation_euler_z.
  cbn [name type data rotation_euler_z animation_data pose_bones select].
  f_equal. rewrite radians_opp. ring.
Qed.


(** X7.  When the script stops for want of animation data or of an active
    action, every object that existed (the selected armature among them, its
    placement included) is exactly as before, as are the actions, the mode,
    the active object and the pop-ups: the rotation of line 93 has not
    happened yet. *)
Theorem failure_leaves_scene_intact s p o :
  active_object s = Some p →
  objects s !! p = Some o →
  type o = ARMATURE →
  (animation_data o = None ∨ ∃ ad, animation_data o = Some ad ∧ action ad = None) →
  ∃ e s',
    script ROTATION s = Raise e s' ∧
    (∀ k x, objects s !! k = Some x → objects s' !! k = Some x) ∧
    objects s' !! p = Some o ∧
    actions s' = actions s ∧ mode s' = mode s ∧
    active_object s' = active_object s ∧ popups s' = popups s.
Proof.
  intros Hact Hp Hty [Had | (ad & Had & Ha)].
  - exists (AttributeError "action"), (duplicated s o).
    split; [by apply (script_no_animation_data ROTATION s p o)|].
    split; [intros k x; apply duplicated_existing|].
    split; [by apply duplicated_existing|]. done.
  - exists (AttributeError "frame_range"), (stranded s o ad).
    split; [by apply (script_no_action ROTATION s p o ad)|].
    rewrite stranded_halted by done.
    split; [intros k x; apply halted_existing|].
    split; [by apply halted_existing|]. done.
Qed.
End Effects.

Lemma radians_0 : radians 0 = 0%R.
Proof. unfold radians. field. Qed.

Lemma radians_add a b : radians (a + b) = (radians a + radians b)%R.
Proof. unfold radians. rewrite plus_IZR. field. Qed.

Lemma rotZ_full_turn m : rotZ (2 * PI) m = m.
Proof.
  destruct m as [[[x1 y1] z1] [[x2 y2] z2] [[x3 y3] z3] [[x4 y4] z4]].
  unfold rotZ, rot_z_vec. cbn [axis_x axis_y axis_z location].
  rewrite cos_2PI, sin_2PI.
  f_equal; (apply pair_equal_spec; split; [apply pair_equal_spec; split|]; ring).
Qed.

Lemma rotZ_radians_period d m : rotZ (radians (d + 360)) m = rotZ (radians d) m.
Proof.
  rewrite radians_add. replace (radians 360) with (2 * PI)%R by (unfold radians; field).
  rewrite <- rotZ_compose. by rewrite rotZ_full_turn.
Qed.

Lemma int_bounds q :
  1 <= int q → (inject_Z (int q) <= q)%Q ∧ (q < inject_Z (int q + 1))%Q.
Proof.
  destruct q as [n d]. unfold int, Qle, Qlt, inject_Z. cbn [Qnum Qden]. intros Hq.
  pose proof (Z.quot_rem' n (Z.pos d)) as Hqr.
  assert (Hn : 0 <= n).
  { destruct (Z.le_gt_cases 0 n) as [|Hneg]; [done|].
    pose proof (Z.rem_bound_pos_neg n (Z.pos d) (Pos2Z.is_pos d) (Z.lt_le_incl _ _ Hneg)). nia. }
  pose proof (Z.rem_bound_pos n (Z.pos d) Hn (Pos2Z.is_pos d)). nia.
Qed.

Lemma string_app_inv_head (s a b : string) : (s ++ a = s ++ b)%string → a = b.
Proof. induction s as [|c s IH]; cbn; [done|]. intros [= H]. by apply IH. Qed.

Lemma to_int_not_nil z : Z.to_int z ≠ Decimal.Pos Decimal.Nil ∧ Z.to_int z ≠ Decimal.Neg Decimal.Nil.
Proof.
  split; intros Heq; pose proof (DecimalZ.of_to z) as Hz; rewrite Heq in Hz;
    cbn in Hz; subst z; discriminate.
Qed.

Lemma str_inj a b : str a = str b → a = b.
Proof.
  intros Heq. unfold str in Heq.
  destruct (to_int_not_nil a) as [Ha1 Ha2]. destruct (to_int_not_nil b) as [Hb1 Hb2].
  pose proof (NilZero.isi _ Ha1 Ha2) as Ia. pose proof (NilZero.isi _ Hb1 Hb2) as Ib.
  rewrite Heq, Ib in Ia. injection Ia as Ia.
  rewrite <- (DecimalZ.of_to a), <- (DecimalZ.of_to b). by rewrite Ia.
Qed.

Section Angles.
Context {solver : Sampler}.


(** X9.  A full turn changes nothing in the data: ROTATION and ROTATION + 360
    give rebaked actions with the same keys and the same frame range. *)
Theorem rebake_full_turn_same_keys ROTATION s p o ad a act :
  ready s p o ad a act →
  ∃ s1 s2 ract1 ract2,
    script ROTATION s = Ok tt s1 ∧
    script (ROTATION + 360) s = Ok tt s2 ∧
    actions s1 !! rotated_id s = Some ract1 ∧
    actions s2 !! rotated_id s = Some ract2 ∧
    keyframes ract2 = keyframes ract1 ∧
    frame_range ract2 = frame_range ract1.
Proof.
  intros Hready.
  exists (finished ROTATION s p o ad a act), (finished (ROTATION + 360) s p o ad a act),
         (rotated_action ROTATION s p o ad a act),
         (rotated_action (ROTATION + 360) s p o ad a act).
  split; [by apply script_spec|]. split; [by apply script_spec|].
  split. { rewrite finished_actions. by rewrite lookup_insert_eq. }
  split. { rewrite finished_actions. by rewrite lookup_insert_eq. }
  split; [|done].
  rewrite !rotated_keyframes_closed by done. unfold rotated_keys.
  apply map_ext. intros f. f_equal. apply map_ext. intros pb.
  by rewrite rotZ_radians_period.
Qed.




End Angles.


(** ** The further properties on the sample scenes *)




(** X4 on the sample walk. *)
Lemma run_adds_one_object_one_action_witness :
  ∃ s',
    script (solver := rest_sampler) 180 walk_scene = Ok tt s' ∧
    (dom (objects s') = dom (objects walk_scene) ∪ {[updated_id walk_scene]}) ∧
    (updated_id walk_scene ∉ dom (objects walk_scene)) ∧
    (dom (actions s') = dom (actions walk_scene) ∪ {[rotated_id walk_scene]}) ∧
    (rotated_id walk_scene ∉ dom (actions walk_scene)) ∧
    mode s' = OBJECT ∧ active_object s' = active_object walk_scene ∧
    popups s' = popups walk_scene.
Proof.
  apply (run_adds_one_object_one_action (solver := rest_sampler) 180 walk_scene 0%nat
           (rig (Some walk_data)) walk_data 0%nat walk).
  repeat split; reflexivity.
Defined.

(** X5 on the sample walk. *)
Lemma run_clears_selection_witness :
  ∃ s',
    script (solver := rest_sampler) 180 walk_scene = Ok tt s' ∧
    ∀ k o', objects s' !! k = Some o' → select o' = false.
Proof.
  apply (run_clears_selection (solver := rest_sampler) 180 walk_scene 0%nat
           (rig (Some walk_data)) walk_data 0%nat walk).
  repeat split; reflexivity.
Defined.

(** X7 on the armature whose action was unlinked. *)
Lemma failure_leaves_scene_intact_witness :
  ∃ e s',
    script (solver := rest_sampler) 180 idle_scene = Raise e s' ∧
    (∀ k x, objects idle_scene !! k = Some x → objects s' !! k = Some x) ∧
    objects s' !! 0%nat = Some (rig (Some idle_data)) ∧
    actions s' = actions idle_scene ∧ mode s' = mode idle_scene ∧
    active_object s' = active_object idle_scene ∧ popups s' = popups idle_scene.
Proof.
  apply (failure_leaves_scene_intact (solver := rest_sampler) 180 idle_scene 0%nat
           (rig (Some idle_data))).
  - reflexivity.
  - reflexivity.
  - reflexivity.
  - right. exists idle_data. split; reflexivity.
Defined.


(** X9 on the sample walk: 90 and 450 degrees. *)
Lemma rebake_full_turn_same_keys_witness :
  ∃ s1 s2 ract1 ract2,
    script (solver := rest_sampler) 90 walk_scene = Ok tt s1 ∧
    script (solver := rest_sampler) (90 + 360) walk_scene = Ok tt s2 ∧
    actions s1 !! rotated_id walk_scene = Some ract1 ∧
    actions s2 !! rotated_id walk_scene = Some ract2 ∧
    keyframes ract2 = keyframes ract1 ∧
    frame_range ract2 = frame_range ract1.
Proof.
  apply (rebake_full_turn_same_keys (solver := rest_sampler) 90 walk_scene 0%nat
           (rig (Some walk_data)) walk_data 0%nat walk).
  repeat split; reflexivity.
Defined.




